(** * ICEPick router TAP support (src/target/icepick.c)

    A shallow embedding of [icepick_write_ir] and [icepick_router_handler]
    together with the facts the specification states about them.

    The C file touches three pieces of ambient state: the global device
    table [jtag_devs] / [jtag_dev_count], the JTAG transport reached through
    [jtag_proc] and the [jtagtap_*] macros, and the debug log.  All three are
    threaded explicitly through a small state-and-failure monad; transport
    calls are recorded, in order, as a trace of [jtag_call] events. *)

From Stdlib Require Import ZArith NArith Lia.
From Stdlib.Strings Require Import Byte.
From stdpp Require Import base option list.

Open Scope Z_scope.

Module Icepick.

(** ** Constants *)

Definition IR_ROUTER : byte := x02.
Definition IR_ICEPICKCODE : byte := x05.
Definition IR_CONNECT : byte := x07.

Definition ICEPICK_TYPE_MASK : Z := 0xfff0.
Definition ICEPICK_TYPE_C : Z := 0x1cc0.
Definition ICEPICK_TYPE_D : Z := 0xb3d0.

Definition ICEPICK_MAJOR_SHIFT : Z := 28.
Definition ICEPICK_MAJOR_MASK : Z := 0xf.
Definition ICEPICK_MINOR_SHIFT : Z := 24.
Definition ICEPICK_MINOR_MASK : Z := 0xf.

Definition UINT32_MAX : Z := 4294967295.

(** The value of a [uint8_t] once it is promoted to a wider unsigned type. *)
Definition uint8_val (b : byte) : Z := Z.of_N (Byte.to_N b).

(** ** Data model *)

(** Modelled from the spec: [jtag_dev_s] is declared in jtag_scan.h, not in
    icepick.c.  The record keeps the four members icepick.c reads or writes:
    the 32-bit [current_ir] (with [UINT32_MAX] as the bypass sentinel) and the
    three unsigned bit counts of section 3 of the specification. *)
Record jtag_dev_s : Type := mk_jtag_dev {
  current_ir : Z;
  ir_len : N;
  ir_prescan : N;
  ir_postscan : N
}.

Global Instance jtag_dev_eq_dec : EqDecision jtag_dev_s.
Proof. solve_decision. Defined.

(** The [data_in] argument of [jtagtap_tdi_seq].  icepick.c passes either the
    shared bucket [ones] or the address of its own parameter [ir]. *)
Inductive tdi_data : Type :=
| ones
| ir_ptr (ir : byte).

Global Instance byte_eq_dec : EqDecision byte := Byte.byte_eq_dec.

Global Instance tdi_data_eq_dec : EqDecision tdi_data.
Proof. solve_decision. Defined.

(** Calls icepick.c makes into the transport and scan-chain layers, with the
    arguments it passes. *)
Inductive jtag_call : Type :=
| jtagtap_shift_ir
| jtagtap_tdi_seq (final_tms : bool) (data_in : tdi_data) (clock_cycles : N)
| jtagtap_return_idle (cycles : N)
| jtag_dev_shift_dr (dev_index : nat) (clock_cycles : N).

Global Instance jtag_call_eq_dec : EqDecision jtag_call.
Proof. solve_decision. Defined.

(** What reaches the diagnostic sink: the macro used and its arguments after
    the format string. *)
Inductive debug_msg : Type :=
| DEBUG_ERROR (icepick_idcode : Z)
| DEBUG_INFO (major minor icepick_idcode : Z).

Global Instance debug_msg_eq_dec : EqDecision debug_msg.
Proof. solve_decision. Defined.

(** Everything the two functions can read or change.  [jtag_devs] is the whole
    array, of which the first [jtag_dev_count] slots form the scan chain.
    [tdo_idcode] is the 32-bit word the hardware shifts out during the DR scan
    of the handler; [calls] and [debug_log] grow at the end. *)
Record world : Type := mk_world {
  jtag_devs : list jtag_dev_s;
  jtag_dev_count : nat;
  tdo_idcode : Z;
  calls : list jtag_call;
  debug_log : list debug_msg
}.

(** ** The effect monad *)

(** [None] stands for an access outside the [jtag_devs] array, for which C
    defines no behaviour.  Neither function has a failure path of its own. *)
Definition M (A : Type) : Type := world -> option (A * world).

Definition ret {A} (a : A) : M A := fun w => Some (a, w).

Definition bind {A B} (m : M A) (k : A -> M B) : M B :=
  fun w => match m w with
           | Some (a, w') => k a w'
           | None => None
           end.

Declare Scope icepick_scope.
Delimit Scope icepick_scope with icepick.
Notation "x <- m ;; k" := (bind m (fun x => k))
  (at level 100, m at next level, right associativity) : icepick_scope.
Notation "m ;; k" := (bind m (fun _ => k))
  (at level 100, right associativity) : icepick_scope.
Open Scope icepick_scope.

Definition set_current_ir (v : Z) (d : jtag_dev_s) : jtag_dev_s :=
  {| current_ir := v; ir_len := ir_len d;
     ir_prescan := ir_prescan d; ir_postscan := ir_postscan d |}.

Definition set_devs (l : list jtag_dev_s) (w : world) : world :=
  {| jtag_devs := l; jtag_dev_count := jtag_dev_count w;
     tdo_idcode := tdo_idcode w; calls := calls w; debug_log := debug_log w |}.

(** [*device], for [device = &jtag_devs[p]]. *)
Definition load_dev (p : nat) : M jtag_dev_s :=
  fun w => match jtag_devs w !! p with
           | Some d => Some (d, w)
           | None => None
           end.

(** [jtag_devs[p].current_ir = v]. *)
Definition store_current_ir (p : nat) (v : Z) : M unit :=
  fun w => match jtag_devs w !! p with
           | Some d => Some (tt, set_devs (<[p := set_current_ir v d]> (jtag_devs w)) w)
           | None => None
           end.

Definition load_dev_count : M nat := fun w => Some (jtag_dev_count w, w).

Definition emit (c : jtag_call) : M unit :=
  fun w => Some (tt, {| jtag_devs := jtag_devs w; jtag_dev_count := jtag_dev_count w;
                        tdo_idcode := tdo_idcode w; calls := calls w ++ [c];
                        debug_log := debug_log w |}).

Definition debug (m : debug_msg) : M unit :=
  fun w => Some (tt, {| jtag_devs := jtag_devs w; jtag_dev_count := jtag_dev_count w;
                        tdo_idcode := tdo_idcode w; calls := calls w;
                        debug_log := debug_log w ++ [m] |}).

(** Modelled from the spec: [jtag_dev_shift_dr] is defined in jtag_scan.c,
    not in icepick.c.  Following section 4.2, step 2, it is a
    read-only shift of [clock_cycles] bits out of the data register path: the
    call is recorded, the word on TDO is handed back through [data_out], and
    the device table is left alone. *)
Definition shift_dr (dev_index : nat) (clock_cycles : N) : M Z :=
  fun w => match emit (jtag_dev_shift_dr dev_index clock_cycles) w with
           | Some (_, w') => Some (tdo_idcode w', w')
           | None => None
           end.

(** ** The two functions *)

(** [for (; device_index < jtag_dev_count; device_index++)
       jtag_devs[device_index].current_ir = UINT32_MAX;]
    with [remaining = jtag_dev_count - device_index] iterations to go. *)
Fixpoint bypass_loop (remaining device_index : nat) : M unit :=
  match remaining with
  | O => ret tt
  | S remaining' =>
      store_current_ir device_index UINT32_MAX ;;
      bypass_loop remaining' (S device_index)
  end.

(** [device] is the index of the slot the pointer refers to, so that the store
    through it aliases the table the loop has just rewritten.  The three
    members read back through [device] afterwards come from that one slot. *)
Definition icepick_write_ir (device : nat) (ir : byte) : M unit :=
  count <- load_dev_count ;;
  bypass_loop count 0 ;;
  store_current_ir device (uint8_val ir) ;;
  emit jtagtap_shift_ir ;;
  d <- load_dev device ;;
  emit (jtagtap_tdi_seq false ones (ir_prescan d)) ;;
  emit (jtagtap_tdi_seq (N.eqb (ir_postscan d) 0) (ir_ptr ir) (ir_len d)) ;;
  emit (jtagtap_tdi_seq true ones (ir_postscan d)) ;;
  emit (jtagtap_return_idle 0).

Definition icepick_router_handler (dev_index : nat) : M unit :=
  let device := dev_index in
  icepick_write_ir device IR_ICEPICKCODE ;;
  icepick_idcode <- shift_dr dev_index 32 ;;
  if negb (Z.eqb (Z.land icepick_idcode ICEPICK_TYPE_MASK) ICEPICK_TYPE_D) then
    debug (DEBUG_ERROR icepick_idcode)
  else
    debug (DEBUG_INFO
             (Z.land (Z.shiftr icepick_idcode ICEPICK_MAJOR_SHIFT) ICEPICK_MAJOR_MASK)
             (Z.land (Z.shiftr icepick_idcode ICEPICK_MINOR_SHIFT) ICEPICK_MINOR_MASK)
             icepick_idcode).

(** ** The transport, as the specification describes it *)

(** Modelled from the spec: the bucket [ones] is defined in jtag_scan.c and
    the body of [jtag_proc.jtagtap_tdi_seq] in the platform code, neither of
    them in icepick.c.  Section 4.1 makes every filler bit
    a logical 1, and section 6 makes [shift_bits(is_last, bit_pattern,
    bit_count)] shift [bit_count] bits, least significant first, of which
    only the final one can carry the exit flag.  A cycle that would read past
    the single byte behind [&ir] has no defined TDI value. *)
Definition tdi_bit (data_in : tdi_data) (cycle : nat) : option bool :=
  match data_in with
  | ones => Some true
  | ir_ptr ir =>
      if (cycle <? 8)%nat then Some (N.testbit (Byte.to_N ir) (N.of_nat cycle))
      else None
  end.

(** The clock cycles of one [jtagtap_tdi_seq] call: the TDI value and whether
    TMS is raised (the exit flag) on that cycle. *)
Definition tdi_cycles (final_tms : bool) (data_in : tdi_data) (clock_cycles : N)
  : list (option bool * bool) :=
  let n := N.to_nat clock_cycles in
  (fun cycle => (tdi_bit data_in cycle, (n <=? cycle + 1)%nat && final_tms))
    <$> seq 0 n.

(** Modelled from the spec: the TAP states named by the state machine of
    section 4.2, [Idle/Reset -> Shift-IR -> Exit1-IR -> Update-IR]. *)
Inductive tap_state : Type :=
| Idle
| Shift_IR
| Exit1_IR
| Update_IR.

Global Instance tap_state_eq_dec : EqDecision tap_state.
Proof. solve_decision. Defined.

(** One shifted bit: the TAP stays in Shift-IR until a bit carries the exit
    flag.  The specification shifts bits in no other state. *)
Definition tap_clock (s : tap_state) (cycle : option bool * bool) : option tap_state :=
  match s with
  | Shift_IR => Some (if snd cycle then Exit1_IR else Shift_IR)
  | _ => None
  end.

Fixpoint tap_clocks (s : tap_state) (cycles : list (option bool * bool))
  : option tap_state :=
  match cycles with
  | [] => Some s
  | c :: cycles' =>
      match tap_clock s c with
      | Some s' => tap_clocks s' cycles'
      | None => None
      end
  end.

(** Modelled from the spec: the effect of the three transport primitives of
    section 6 on the TAP state.  [jtagtap_shift_ir] is [enter_shift_ir()]
    (drive the state machine into Shift-IR); [jtagtap_tdi_seq] is
    [shift_bits]; [jtagtap_return_idle] is [return_to_state(depth)], which
    moves from Exit1-IR to Update-IR and, for a non-zero depth, on to Idle.
    [jtag_dev_shift_dr] is not a transport primitive and the specification
    gives it no place in this state machine. *)
Definition tap_step (s : tap_state) (c : jtag_call) : option tap_state :=
  match c with
  | jtagtap_shift_ir => Some Shift_IR
  | jtagtap_tdi_seq final_tms data_in clock_cycles =>
      tap_clocks s (tdi_cycles final_tms data_in clock_cycles)
  | jtagtap_return_idle cycles =>
      match s with
      | Exit1_IR => Some (if N.eqb cycles 0 then Update_IR else Idle)
      | _ => None
      end
  | jtag_dev_shift_dr _ _ => None
  end.

(** The state reached after each call of a trace, starting from [s]. *)
Fixpoint tap_run (s : tap_state) (cs : list jtag_call) : option (list tap_state) :=
  match cs with
  | [] => Some []
  | c :: cs' =>
      match tap_step s c with
      | Some s' =>
          match tap_run s' cs' with
          | Some path => Some (s' :: path)
          | None => None
          end
      | None => None
      end
  end.

(** Drop the repetitions of a state that follow it immediately, leaving the
    transitions. *)
Fixpoint transitions (path : list tap_state) : list tap_state :=
  match path with
  | [] => []
  | s :: path' =>
      match path' with
      | [] => [s]
      | s' :: _ => if decide (s = s') then transitions path' else s :: transitions path'
      end
  end.

(** A call that asks the transport to go back to Idle. *)
Definition requests_idle (c : jtag_call) : bool :=
  match c with
  | jtagtap_return_idle cycles => negb (N.eqb cycles 0)
  | _ => false
  end.

Definition is_return_idle (c : jtag_call) : bool :=
  match c with
  | jtagtap_return_idle _ => true
  | _ => false
  end.

Definition is_tdi_seq (c : jtag_call) : bool :=
  match c with
  | jtagtap_tdi_seq _ _ _ => true
  | _ => false
  end.

(** ** The specification's reading of the two operations *)

(** The transport calls section 4.1 prescribes for [write_instruction(d, x)]:
    enter Shift-IR, [prescan(d)] ones, the instruction (exit flag iff
    [postscan(d) == 0]), [postscan(d)] ones with the exit flag, then
    [return_to_state(0)]. *)
Definition write_instruction_calls (d : jtag_dev_s) (x : byte) : list jtag_call :=
  [ jtagtap_shift_ir;
    jtagtap_tdi_seq false ones (ir_prescan d);
    jtagtap_tdi_seq (bool_decide (ir_postscan d = 0%N)) (ir_ptr x) (ir_len d);
    jtagtap_tdi_seq true ones (ir_postscan d);
    jtagtap_return_idle 0 ].

(** The same sequence bit by bit, as section 8 words it: pairs of a TDI value
    and the exit flag, the flag being raised on the final bit of a phase at
    most. *)
Definition flag_last (flag : bool) (bits : list bool) : list (option bool * bool) :=
  imap (fun i b => (Some b, bool_decide (S i = length bits) && flag)) bits.

(** The [len]-bit encoding of [x], least significant bit first. *)
Definition encoding (len : N) (x : byte) : list bool :=
  (fun i => Z.testbit (uint8_val x) (Z.of_nat i)) <$> seq 0 (N.to_nat len).

Definition write_instruction_bits (d : jtag_dev_s) (x : byte)
  : list (option bool * bool) :=
  flag_last false (replicate (N.to_nat (ir_prescan d)) true) ++
  flag_last (bool_decide (ir_postscan d = 0%N)) (encoding (ir_len d) x) ++
  flag_last true (replicate (N.to_nat (ir_postscan d)) true).

(** The clock cycles a trace of calls puts on the wire. *)
Definition wire (cs : list jtag_call) : list (option bool * bool) :=
  cs ≫= (fun c => match c with
                  | jtagtap_tdi_seq final_tms data_in clock_cycles =>
                      tdi_cycles final_tms data_in clock_cycles
                  | _ => []
                  end).

(** The device table after a chain-wide write: slots [k .. k+n-1] hold the
    bypass sentinel, every other slot is as before. *)
Definition bypassed (k n : nat) (l : list jtag_dev_s) : list jtag_dev_s :=
  imap (fun j d => if bool_decide (k <= j < k + n)%nat
                   then set_current_ir UINT32_MAX d else d) l.

(** The table section 4.1, step 1 asks for: every slot of the chain reset to
    bypass, then slot [p] set to the instruction. *)
Definition write_instruction_table (p : nat) (x : byte) (w : world) : list jtag_dev_s :=
  alter (set_current_ir (uint8_val x)) p
        (bypassed 0 (jtag_dev_count w) (jtag_devs w)).

(** The attributes of a device that enumeration fixes. *)
Definition attributes (d : jtag_dev_s) : N * N * N :=
  (ir_len d, ir_prescan d, ir_postscan d).

(** The chain is the first [jtag_dev_count] slots of the array. *)
Definition chain_fits (w : world) : Prop :=
  (jtag_dev_count w <= length (jtag_devs w))%nat.

(** *** Sample chains *)

(** Three devices with [ir_length = [4, 6, 4]]; the table still holds whatever
    earlier operations left in [current_ir]. *)
Definition chain3 : world :=
  {| jtag_devs := [ mk_jtag_dev 0x3 4 0 10; mk_jtag_dev UINT32_MAX 6 4 4;
                    mk_jtag_dev 0x9 4 10 0 ];
     jtag_dev_count := 3;
     tdo_idcode := 0x1234B3D5;
     calls := [];
     debug_log := [] |}.

(** The same chain answering with a code whose type field is not type-D. *)
Definition chain3_other : world :=
  {| jtag_devs := jtag_devs chain3; jtag_dev_count := 3;
     tdo_idcode := 0x1234C3D5; calls := []; debug_log := [] |}.

(** A lone router, last on the chain, in an array with one spare slot that
    enumeration has zeroed and that is not part of the chain. *)
Definition lone_router : world :=
  {| jtag_devs := [ mk_jtag_dev UINT32_MAX 6 0 0; mk_jtag_dev 0 0 0 0 ];
     jtag_dev_count := 1;
     tdo_idcode := 0x00001CC0;
     calls := [];
     debug_log := [] |}.

(** Two devices, the second with an empty instruction register at the end of
    the chain; prescan, length and postscan add up to the chain width. *)
Definition chain_empty_ir : world :=
  {| jtag_devs := [ mk_jtag_dev UINT32_MAX 4 0 0; mk_jtag_dev UINT32_MAX 0 4 0 ];
     jtag_dev_count := 2;
     tdo_idcode := 0;
     calls := [];
     debug_log := [] |}.

(** A ten-bit IR in front of the six-bit router. *)
Definition chain_long_ir : world :=
  {| jtag_devs := [ mk_jtag_dev UINT32_MAX 10 0 6; mk_jtag_dev UINT32_MAX 6 10 0 ];
     jtag_dev_count := 2;
     tdo_idcode := 0;
     calls := [];
     debug_log := [] |}.

(** ** Measures on traces *)

(** The world [w] with another word waiting on TDO. *)
Definition set_tdo_idcode (code : Z) (w : world) : world :=
  {| jtag_devs := jtag_devs w; jtag_dev_count := jtag_dev_count w;
     tdo_idcode := code; calls := calls w; debug_log := debug_log w |}.

(** The [clock_cycles] argument of a shift call; other calls shift nothing. *)
Definition clock_cycles_of (c : jtag_call) : N :=
  match c with
  | jtagtap_tdi_seq _ _ clock_cycles => clock_cycles
  | _ => 0%N
  end.

(** All the clock cycles a trace asks the transport to shift. *)
Definition clock_total (cs : list jtag_call) : N :=
  foldr (fun c acc => (clock_cycles_of c + acc)%N) 0%N cs.

(** A shift call that asks for the exit on a bit it really shifts. *)
Definition takes_exit (c : jtag_call) : bool :=
  match c with
  | jtagtap_tdi_seq final_tms _ clock_cycles => final_tms && (0 <? clock_cycles)%N
  | _ => false
  end.

(** The clock cycles a trace asks for after one of its shifts has taken the
    exit; [exited] tells whether that has happened before [cs]. *)
Fixpoint cycles_after_exit (exited : bool) (cs : list jtag_call) : N :=
  match cs with
  | [] => 0%N
  | c :: cs' =>
      ((if exited then clock_cycles_of c else 0) +
       cycles_after_exit (exited || takes_exit c) cs')%N
  end.

(** ** Running the code *)

Section Run.

Implicit Types (w : world) (d : jtag_dev_s) (l : list jtag_dev_s).
Implicit Types (p j k n : nat) (ir x : byte).

Lemma set_devs_same w : set_devs (jtag_devs w) w = w.
Proof. by destruct w. Qed.

Lemma bypassed_lookup k n l j :
  bypassed k n l !! j =
    (fun d => if bool_decide (k <= j < k + n)%nat
              then set_current_ir UINT32_MAX d else d) <$> l !! j.
Proof. unfold bypassed. by rewrite list_lookup_imap. Qed.

Lemma bypassed_length k n l : length (bypassed k n l) = length l.
Proof. unfold bypassed. by rewrite length_imap. Qed.

Lemma bypassed_none k l : bypassed k 0 l = l.
Proof.
  apply list_eq; intros j. rewrite bypassed_lookup.
  rewrite bool_decide_eq_false_2 by lia. by destruct (l !! j).
Qed.

Lemma bypassed_step k n l d :
  l !! k = Some d ->
  bypassed (S k) n (<[k := set_current_ir UINT32_MAX d]> l) = bypassed k (S n) l.
Proof.
  intros Hk. apply list_eq; intros j. rewrite !bypassed_lookup.
  destruct (decide (j = k)) as [->|Hne].
  - rewrite list_lookup_insert_eq by (by eapply lookup_lt_Some).
    rewrite Hk. simpl.
    rewrite bool_decide_eq_false_2 by lia.
    by rewrite bool_decide_eq_true_2 by lia.
  - rewrite list_lookup_insert_ne by done.
    destruct (l !! j); simpl; [|done].
    destruct (decide (k <= j < k + S n)%nat).
    + rewrite !bool_decide_eq_true_2; [done | lia | lia].
    + rewrite !bool_decide_eq_false_2; [done | lia | lia].
Qed.

(** The loop never leaves the array when the chain fits in it, and leaves the
    bypass sentinel in exactly the slots it walked over. *)
Lemma bypass_loop_run n k w :
  (k + n <= length (jtag_devs w))%nat ->
  bypass_loop n k w = Some (tt, set_devs (bypassed k n (jtag_devs w)) w).
Proof.
  revert k w. induction n as [|n IH]; intros k w Hlen.
  - simpl. unfold ret. by rewrite bypassed_none, set_devs_same.
  - simpl. unfold bind at 1. unfold store_current_ir.
    destruct (lookup_lt_is_Some_2 (jtag_devs w) k ltac:(lia)) as [d Hd].
    rewrite Hd. rewrite IH by (simpl; rewrite length_insert; lia).
    simpl. by rewrite bypassed_step.
Qed.

(** The whole of [icepick_write_ir] in one equation. *)
Lemma icepick_write_ir_run w p d x :
  chain_fits w ->
  jtag_devs w !! p = Some d ->
  icepick_write_ir p x w =
    Some (tt, {| jtag_devs := write_instruction_table p x w;
                 jtag_dev_count := jtag_dev_count w;
                 tdo_idcode := tdo_idcode w;
                 calls := calls w ++ write_instruction_calls d x;
                 debug_log := debug_log w |}).
Proof.
  intros Hfit Hp. unfold icepick_write_ir, write_instruction_table.
  unfold bind at 1. unfold load_dev_count.
  unfold bind at 1. rewrite bypass_loop_run by (apply Hfit).
  unfold bind at 1. unfold store_current_ir. simpl.
  rewrite bypassed_lookup, Hp. simpl.
  unfold bind at 1. simpl.
  unfold bind at 1. unfold load_dev. simpl.
  rewrite list_lookup_insert_eq
    by (rewrite bypassed_length; by eapply lookup_lt_Some).
  unfold bind, emit. simpl.
  do 3 f_equal.
  - apply list_eq; intros j. destruct (decide (j = p)) as [->|Hne].
    + rewrite list_lookup_insert_eq
        by (rewrite bypassed_length; by eapply lookup_lt_Some).
      rewrite list_lookup_alter_eq, bypassed_lookup, Hp. simpl.
      by case_bool_decide.
    + by rewrite list_lookup_insert_ne, list_lookup_alter_ne by done.
  - unfold write_instruction_calls. rewrite <- !app_assoc. simpl.
    f_equal. case_bool_decide; simpl; by destruct (ir_postscan d).
Qed.

Lemma write_instruction_table_target w p d x :
  jtag_devs w !! p = Some d ->
  write_instruction_table p x w !! p = Some (set_current_ir (uint8_val x) d).
Proof.
  intros Hp. unfold write_instruction_table.
  rewrite list_lookup_alter_eq, bypassed_lookup, Hp. simpl.
  by case_bool_decide.
Qed.

Lemma write_instruction_table_other w p x j :
  j <> p ->
  write_instruction_table p x w !! j =
    (fun d => if bool_decide (j < jtag_dev_count w)%nat
              then set_current_ir UINT32_MAX d else d) <$> jtag_devs w !! j.
Proof.
  intros Hne. unfold write_instruction_table.
  rewrite list_lookup_alter_ne by done. rewrite bypassed_lookup.
  destruct (jtag_devs w !! j) as [dj|]; simpl; [|done].
  destruct (decide (j < jtag_dev_count w)%nat).
  - rewrite !bool_decide_eq_true_2; [done | lia | lia].
  - rewrite !bool_decide_eq_false_2; [done | lia | lia].
Qed.

Lemma write_instruction_table_attributes w p x :
  attributes <$> write_instruction_table p x w = attributes <$> jtag_devs w.
Proof.
  apply list_eq; intros j. rewrite !list_lookup_fmap.
  destruct (decide (j = p)) as [->|Hne].
  - destruct (jtag_devs w !! p) as [d|] eqn:Hp.
    + by rewrite (write_instruction_table_target w p d x Hp).
    + unfold write_instruction_table. rewrite list_lookup_alter_eq, bypassed_lookup, Hp. done.
  - rewrite write_instruction_table_other by done.
    destruct (jtag_devs w !! j) as [dj|]; simpl; [|done].
    by case_bool_decide.
Qed.

(** The whole of [icepick_router_handler] in one equation. *)
Lemma icepick_router_handler_run w p d :
  chain_fits w ->
  jtag_devs w !! p = Some d ->
  icepick_router_handler p w =
    Some (tt, {| jtag_devs := write_instruction_table p IR_ICEPICKCODE w;
                 jtag_dev_count := jtag_dev_count w;
                 tdo_idcode := tdo_idcode w;
                 calls := (calls w ++ write_instruction_calls d IR_ICEPICKCODE)
                            ++ [jtag_dev_shift_dr p 32];
                 debug_log :=
                   debug_log w ++
                   [ if bool_decide (Z.land (tdo_idcode w) ICEPICK_TYPE_MASK = ICEPICK_TYPE_D)
                     then DEBUG_INFO
                            (Z.land (Z.shiftr (tdo_idcode w) ICEPICK_MAJOR_SHIFT) ICEPICK_MAJOR_MASK)
                            (Z.land (Z.shiftr (tdo_idcode w) ICEPICK_MINOR_SHIFT) ICEPICK_MINOR_MASK)
                            (tdo_idcode w)
                     else DEBUG_ERROR (tdo_idcode w) ] |}).
Proof.
  intros Hfit Hp. unfold icepick_router_handler.
  unfold bind at 1. rewrite (icepick_write_ir_run w p d _ Hfit Hp).
  unfold bind, shift_dr, emit. simpl.
  destruct (Z.eqb_spec (Z.land (tdo_idcode w) ICEPICK_TYPE_MASK) ICEPICK_TYPE_D)
    as [Heq|Hne]; simpl.
  - by rewrite bool_decide_eq_true_2.
  - by rewrite bool_decide_eq_false_2.
Qed.

End Run.

(** ** Bits on the wire and the TAP state *)

Section Wire.

Implicit Types (final_tms : bool) (data_in : tdi_data) (n : N) (s : tap_state).

Lemma tdi_cycles_length final_tms data_in n :
  length (tdi_cycles final_tms data_in n) = N.to_nat n.
Proof. unfold tdi_cycles. by rewrite length_fmap, length_seq. Qed.

Lemma tdi_cycles_lookup final_tms data_in n (i : nat) :
  (i < N.to_nat n)%nat ->
  tdi_cycles final_tms data_in n !! i =
    Some (tdi_bit data_in i, bool_decide (S i = N.to_nat n) && final_tms).
Proof.
  intros Hi. unfold tdi_cycles.
  rewrite list_lookup_fmap, lookup_seq_lt by done. simpl.
  do 3 f_equal. case_bool_decide.
  - apply Nat.leb_le. lia.
  - apply Nat.leb_gt. lia.
Qed.

(** A shift call agrees with a bit list flagged on its last element as soon
    as the data behind the pointer holds those bits. *)
Lemma tdi_cycles_flag_last final_tms data_in n (bits : list bool) :
  length bits = N.to_nat n ->
  (forall (i : nat) b, bits !! i = Some b -> tdi_bit data_in i = Some b) ->
  tdi_cycles final_tms data_in n = flag_last final_tms bits.
Proof.
  intros Hlen Hbits. apply list_eq; intros i. unfold flag_last.
  rewrite list_lookup_imap.
  destruct (bits !! i) as [b|] eqn:Hb; simpl.
  - rewrite tdi_cycles_lookup by (rewrite <- Hlen; by eapply lookup_lt_Some).
    by rewrite (Hbits i b Hb), Hlen.
  - apply lookup_ge_None. rewrite tdi_cycles_length, <- Hlen.
    by apply lookup_ge_None.
Qed.

Lemma tdi_cycles_ones final_tms n :
  tdi_cycles final_tms ones n = flag_last final_tms (replicate (N.to_nat n) true).
Proof.
  apply tdi_cycles_flag_last; [by rewrite length_replicate|].
  intros i b Hb. apply lookup_replicate in Hb as [-> _]. done.
Qed.

Lemma tdi_cycles_ir final_tms n (x : byte) :
  (n <= 8)%N ->
  tdi_cycles final_tms (ir_ptr x) n = flag_last final_tms (encoding n x).
Proof.
  intros Hn. apply tdi_cycles_flag_last.
  - unfold encoding. by rewrite length_fmap, length_seq.
  - intros i b Hb. unfold encoding in Hb.
    rewrite list_lookup_fmap in Hb.
    destruct (seq 0 (N.to_nat n) !! i) as [k|] eqn:Hk; simpl in Hb; [|done].
    apply lookup_seq in Hk as [-> Hi]. simpl in Hb.
    injection Hb as <-. simpl.
    replace (i <? 8)%nat with true by (symmetry; apply Nat.ltb_lt; lia).
    unfold uint8_val. by rewrite <- nat_N_Z, Z.testbit_of_N.
Qed.

Lemma wire_write_instruction (d : jtag_dev_s) (x : byte) :
  (ir_len d <= 8)%N ->
  wire (write_instruction_calls d x) = write_instruction_bits d x.
Proof.
  intros Hlen. unfold wire, write_instruction_calls, write_instruction_bits.
  simpl. rewrite app_nil_r.
  by rewrite !tdi_cycles_ones, tdi_cycles_ir.
Qed.

(** Shifting from Shift-IR: the TAP leaves for Exit1-IR if and only if the
    call shifts at least one bit and asks for the exit on its final bit. *)
Lemma tap_clocks_shift final_tms data_in (total k m : nat) :
  (k + m = total)%nat ->
  tap_clocks Shift_IR
    ((fun cycle => (tdi_bit data_in cycle, (total <=? cycle + 1)%nat && final_tms))
       <$> seq k m) =
  Some (if final_tms && bool_decide (0 < m)%nat then Exit1_IR else Shift_IR).
Proof.
  revert k. induction m as [|m IH]; intros k Hk.
  - simpl. by rewrite andb_false_r.
  - simpl. destruct m as [|m].
    + simpl. replace (total <=? k + 1)%nat with true
        by (symmetry; apply Nat.leb_le; lia).
      by destruct final_tms.
    + replace (total <=? k + 1)%nat with false
        by (symmetry; apply Nat.leb_gt; lia).
      simpl andb. cbv iota.
      rewrite IH by lia.
      rewrite !bool_decide_eq_true_2 by lia. done.
Qed.

Lemma tap_step_tdi_seq final_tms data_in n :
  tap_step Shift_IR (jtagtap_tdi_seq final_tms data_in n) =
    Some (if final_tms && bool_decide (0 < n)%N then Exit1_IR else Shift_IR).
Proof.
  simpl. unfold tdi_cycles.
  rewrite (tap_clocks_shift final_tms data_in (N.to_nat n) 0 (N.to_nat n)) by lia.
  destruct final_tms; simpl; [|done].
  destruct (decide (0 < n)%N).
  - rewrite !bool_decide_eq_true_2; [done | lia | lia].
  - rewrite !bool_decide_eq_false_2; [done | lia | lia].
Qed.

(** The states after each of the five calls of a chain-wide write, for a
    device that shifts at least one bit from its own IR onwards. *)
Lemma tap_run_write_instruction s (d : jtag_dev_s) (x : byte) :
  (0 < ir_len d \/ 0 < ir_postscan d)%N ->
  tap_run s (write_instruction_calls d x) =
    Some [ Shift_IR; Shift_IR;
           if bool_decide (ir_postscan d = 0%N) then Exit1_IR else Shift_IR;
           Exit1_IR; Update_IR ].
Proof.
  intros Hbits. unfold write_instruction_calls.
  cbn [tap_run]. cbn [tap_step].
  fold (tap_step Shift_IR (jtagtap_tdi_seq false ones (ir_prescan d))).
  rewrite tap_step_tdi_seq. cbn [andb].
  fold (tap_step Shift_IR
          (jtagtap_tdi_seq (bool_decide (ir_postscan d = 0%N)) (ir_ptr x) (ir_len d))).
  rewrite tap_step_tdi_seq.
  case_bool_decide as Hpost.
  - rewrite Hpost. rewrite bool_decide_eq_true_2 by lia. by simpl.
  - cbn [andb].
    fold (tap_step Shift_IR (jtagtap_tdi_seq true ones (ir_postscan d))).
    rewrite tap_step_tdi_seq. rewrite bool_decide_eq_true_2 by lia. by simpl.
Qed.

End Wire.

(** ** The IR addressing engine *)

Section WriteInstruction.

Variable w : world.
Variable p : nat.
Variable x : byte.
Hypothesis Hfit : chain_fits w.

(** C1, amended.  For every device [d] of the table and every instruction
    [x], [icepick_write_ir] hands the transport, in this order and with
    nothing in between: a shift of [ir_prescan d] bits taken from [ones] with
    the exit flag false, a shift of [ir_len d] bits read through [&ir] whose
    exit flag is set exactly when [ir_postscan d] is zero, and a shift of
    [ir_postscan d] bits taken from [ones] with the exit flag true.  The
    shifts are bracketed by the entry into Shift-IR and the return with depth
    0.  For a device whose IR is no longer than the eight bits of [ir] the
    bits on the wire are [ir_prescan d] ones, the [ir_len d] low bits of [x],
    least significant first, and [ir_postscan d] ones, the exit flag being
    raised on the final bit of the instruction when the postscan is zero and
    on the final postscan bit otherwise. *)
Theorem write_ir_transport_calls (d : jtag_dev_s) :
  jtag_devs w !! p = Some d ->
  exists w' cs,
    icepick_write_ir p x w = Some (tt, w') /\
    calls w' = calls w ++ cs /\
    cs =
      [ jtagtap_shift_ir;
        jtagtap_tdi_seq false ones (ir_prescan d);
        jtagtap_tdi_seq (bool_decide (ir_postscan d = 0%N)) (ir_ptr x) (ir_len d);
        jtagtap_tdi_seq true ones (ir_postscan d);
        jtagtap_return_idle 0 ] /\
    ((ir_len d <= 8)%N -> wire cs = write_instruction_bits d x).
Proof.
  intros Hp. eexists _, (write_instruction_calls d x). split.
  - exact (icepick_write_ir_run w p d x Hfit Hp).
  - split; [reflexivity|]. split; [reflexivity|].
    apply wire_write_instruction.
Qed.

(** C2.  For a device of the chain, whatever the table held before the call,
    [icepick_write_ir] leaves [x] in that device's [current_ir] and the bypass
    sentinel [UINT32_MAX] in the [current_ir] of every other device of the
    chain. *)
Theorem write_ir_current_ir :
  (p < jtag_dev_count w)%nat ->
  exists w',
    icepick_write_ir p x w = Some (tt, w') /\
    current_ir <$> jtag_devs w' !! p = Some (uint8_val x) /\
    forall j, (j < jtag_dev_count w')%nat -> j <> p ->
      current_ir <$> jtag_devs w' !! j = Some UINT32_MAX.
Proof.
  intros Hin.
  destruct (lookup_lt_is_Some_2 (jtag_devs w) p) as [d Hp];
    [unfold chain_fits in Hfit; lia|].
  eexists. split; [exact (icepick_write_ir_run w p d x Hfit Hp)|].
  simpl. split.
  - by rewrite (write_instruction_table_target w p d x Hp).
  - intros j Hj Hne. rewrite write_instruction_table_other by done.
    destruct (lookup_lt_is_Some_2 (jtag_devs w) j) as [dj Hdj];
      [unfold chain_fits in Hfit; lia|].
    rewrite Hdj. simpl. by rewrite bool_decide_eq_true_2.
Qed.

(** C7.  Two calls of [icepick_write_ir] in a row, for the same device and
    instruction, issue the same transport calls: same operations, same data,
    same bit counts, same exit flags. *)
Theorem write_ir_twice_same_calls (d : jtag_dev_s) :
  jtag_devs w !! p = Some d ->
  exists w1 w2 cs,
    icepick_write_ir p x w = Some (tt, w1) /\
    icepick_write_ir p x w1 = Some (tt, w2) /\
    calls w1 = calls w ++ cs /\
    calls w2 = calls w1 ++ cs.
Proof.
  intros Hp.
  pose proof (icepick_write_ir_run w p d x Hfit Hp) as Hrun1.
  set (w1 := {| jtag_devs := write_instruction_table p x w; jtag_dev_count := jtag_dev_count w;
                tdo_idcode := tdo_idcode w;
                calls := calls w ++ write_instruction_calls d x;
                debug_log := debug_log w |}) in Hrun1.
  assert (Hfit1 : chain_fits w1).
  { unfold chain_fits, w1, write_instruction_table. simpl.
    rewrite length_alter, bypassed_length. exact Hfit. }
  assert (Hp1 : jtag_devs w1 !! p = Some (set_current_ir (uint8_val x) d)).
  { exact (write_instruction_table_target w p d x Hp). }
  pose proof (icepick_write_ir_run w1 p _ x Hfit1 Hp1) as Hrun2.
  eexists w1, _, (write_instruction_calls d x).
  split; [exact Hrun1|]. split; [exact Hrun2|]. split; reflexivity.
Qed.

(** C4, amended.  The shift for the postscan filler is issued on every call,
    as the third and last of three shift calls, with the exit flag and the bit
    count [ir_postscan d].  It puts [ir_postscan d] bits on the wire, every one
    a logical 1 and the final one carrying the exit flag; when [ir_postscan d]
    is zero the call is still made and shifts nothing. *)
Theorem write_ir_postscan_call (d : jtag_dev_s) :
  jtag_devs w !! p = Some d ->
  exists w' cs,
    icepick_write_ir p x w = Some (tt, w') /\
    calls w' = calls w ++ cs /\
    filter (fun c => is_tdi_seq c = true) cs =
      [ jtagtap_tdi_seq false ones (ir_prescan d);
        jtagtap_tdi_seq (bool_decide (ir_postscan d = 0%N)) (ir_ptr x) (ir_len d);
        jtagtap_tdi_seq true ones (ir_postscan d) ] /\
    length (tdi_cycles true ones (ir_postscan d)) = N.to_nat (ir_postscan d) /\
    (ir_postscan d = 0%N -> tdi_cycles true ones (ir_postscan d) = []) /\
    (forall i, (i < N.to_nat (ir_postscan d))%nat ->
       tdi_cycles true ones (ir_postscan d) !! i =
         Some (Some true, bool_decide (S i = N.to_nat (ir_postscan d)))).
Proof.
  intros Hp. eexists _, (write_instruction_calls d x).
  split; [exact (icepick_write_ir_run w p d x Hfit Hp)|].
  split; [reflexivity|]. split; [reflexivity|].
  split; [apply tdi_cycles_length|]. split.
  - intros ->. reflexivity.
  - intros i Hi. rewrite tdi_cycles_lookup by done.
    simpl. by rewrite andb_true_r.
Qed.

(** Every call issues a single [jtagtap_return_idle], with depth 0, as its
    last transport call and after the shifts, and [icepick_router_handler]
    adds nothing to those calls but its one DR read.  For a device whose IR
    length or postscan is not zero the TAP goes Idle, Shift-IR, Exit1-IR,
    Update-IR and is left in Update-IR. *)
Theorem write_ir_tap_transitions (d : jtag_dev_s) :
  jtag_devs w !! p = Some d ->
  exists w' cs shifts,
    icepick_write_ir p x w = Some (tt, w') /\
    calls w' = calls w ++ cs /\
    cs = jtagtap_shift_ir :: shifts ++ [jtagtap_return_idle 0] /\
    forallb is_tdi_seq shifts = true /\
    filter (fun c => is_return_idle c = true) cs = [jtagtap_return_idle 0] /\
    existsb requests_idle cs = false /\
    (exists w2,
       icepick_router_handler p w = Some (tt, w2) /\
       calls w2 =
         calls w ++
         [ jtagtap_shift_ir;
           jtagtap_tdi_seq false ones (ir_prescan d);
           jtagtap_tdi_seq (bool_decide (ir_postscan d = 0%N))
             (ir_ptr IR_ICEPICKCODE) (ir_len d);
           jtagtap_tdi_seq true ones (ir_postscan d);
           jtagtap_return_idle 0;
           jtag_dev_shift_dr p 32 ]) /\
    ((0 < ir_len d \/ 0 < ir_postscan d)%N ->
     exists path,
       tap_run Idle cs = Some path /\
       last path = Some Update_IR /\
       transitions (Idle :: path) = [Idle; Shift_IR; Exit1_IR; Update_IR]).
Proof.
  intros Hp.
  eexists _, (write_instruction_calls d x),
    [ jtagtap_tdi_seq false ones (ir_prescan d);
      jtagtap_tdi_seq (bool_decide (ir_postscan d = 0%N)) (ir_ptr x) (ir_len d);
      jtagtap_tdi_seq true ones (ir_postscan d) ].
  split; [exact (icepick_write_ir_run w p d x Hfit Hp)|].
  split; [reflexivity|]. split; [reflexivity|].
  split; [reflexivity|]. split; [reflexivity|]. split; [reflexivity|].
  split.
  - eexists. split; [exact (icepick_router_handler_run w p d Hfit Hp)|].
    simpl. by rewrite <- app_assoc.
  - intros Hbits. eexists. split; [exact (tap_run_write_instruction Idle d x Hbits)|].
    split; [reflexivity|]. by case_bool_decide.
Qed.

(** C9, amended.  Nothing is checked: a call whose instruction does not fit in
    the target's IR length, or whose target is a slot of the array outside the
    chain, completes as any other call does.  It stores the whole instruction
    byte in the target's [current_ir], issues the usual five transport calls,
    the instruction shift with bit count [ir_len d], and reports nothing. *)
Theorem write_ir_unchecked (d : jtag_dev_s) :
  jtag_devs w !! p = Some d ->
  2 ^ Z.of_N (ir_len d) <= uint8_val x \/ (jtag_dev_count w <= p)%nat ->
  exists w',
    icepick_write_ir p x w = Some (tt, w') /\
    current_ir <$> jtag_devs w' !! p = Some (uint8_val x) /\
    calls w' = calls w ++ write_instruction_calls d x /\
    debug_log w' = debug_log w.
Proof.
  intros Hp _. eexists.
  split; [exact (icepick_write_ir_run w p d x Hfit Hp)|].
  simpl. by rewrite (write_instruction_table_target w p d x Hp).
Qed.

End WriteInstruction.

(** C8.  Both operations change nothing in the device table but the
    [current_ir] fields: the IR length, prescan and postscan of every slot,
    the number of slots, their order and the device count are as before. *)
Theorem table_frame (w : world) (p : nat) (x : byte) (d : jtag_dev_s) :
  chain_fits w ->
  jtag_devs w !! p = Some d ->
  exists w1 w2,
    icepick_write_ir p x w = Some (tt, w1) /\
    icepick_router_handler p w = Some (tt, w2) /\
    attributes <$> jtag_devs w1 = attributes <$> jtag_devs w /\
    attributes <$> jtag_devs w2 = attributes <$> jtag_devs w /\
    length (jtag_devs w1) = length (jtag_devs w) /\
    length (jtag_devs w2) = length (jtag_devs w) /\
    jtag_dev_count w1 = jtag_dev_count w /\
    jtag_dev_count w2 = jtag_dev_count w.
Proof.
  intros Hfit Hp. eexists _, _.
  split; [exact (icepick_write_ir_run w p d x Hfit Hp)|].
  split; [exact (icepick_router_handler_run w p d Hfit Hp)|].
  simpl. rewrite !write_instruction_table_attributes.
  unfold write_instruction_table. rewrite !length_alter, !bypassed_length. done.
Qed.

(** ** The identification reader *)

Section ReadIdentification.

Variable w : world.
Variable p : nat.
Variable d : jtag_dev_s.
Hypothesis Hfit : chain_fits w.
Hypothesis Hp : jtag_devs w !! p = Some d.

(** C3.  Whatever 32-bit code the router shifts out, the handler reports a
    mismatch carrying that code exactly when [code & 0xfff0] differs from the
    expected type signature [0xb3d0]; when they agree it reports the major
    revision [(code >> 28) & 0xf], the minor revision [(code >> 24) & 0xf] and
    the code itself.  It reports nothing else. *)
Theorem router_handler_classifies :
  exists w',
    icepick_router_handler p w = Some (tt, w') /\
    (debug_log w' = debug_log w ++ [DEBUG_ERROR (tdo_idcode w)]
       <-> Z.land (tdo_idcode w) 0xfff0 <> 0xb3d0) /\
    (Z.land (tdo_idcode w) 0xfff0 = 0xb3d0 ->
       debug_log w' =
         debug_log w ++
         [DEBUG_INFO (Z.land (Z.shiftr (tdo_idcode w) 28) 0xf)
                     (Z.land (Z.shiftr (tdo_idcode w) 24) 0xf)
                     (tdo_idcode w)]).
Proof.
  eexists. split; [exact (icepick_router_handler_run w p d Hfit Hp)|].
  simpl. change ICEPICK_TYPE_MASK with 0xfff0. change ICEPICK_TYPE_D with 0xb3d0.
  case_bool_decide as Hty.
  - split; [|done]. split; [|done].
    intros Hlog. apply app_inv_head in Hlog. discriminate Hlog.
  - split; [|done]. split; done.
Qed.

(** C5.  When the handler ends in a mismatch the device table is the one
    [icepick_write_ir] left for the identification-read instruction: the
    target holds [IR_ICEPICKCODE], every other device of the chain holds the
    bypass sentinel.  The DR read that produced the code is the last call the
    handler makes; all that follows is the error report. *)
Theorem router_handler_mismatch_state :
  Z.land (tdo_idcode w) ICEPICK_TYPE_MASK <> ICEPICK_TYPE_D ->
  exists w1 w',
    icepick_write_ir p IR_ICEPICKCODE w = Some (tt, w1) /\
    icepick_router_handler p w = Some (tt, w') /\
    jtag_devs w' = jtag_devs w1 /\
    jtag_dev_count w' = jtag_dev_count w1 /\
    current_ir <$> jtag_devs w' !! p = Some (uint8_val IR_ICEPICKCODE) /\
    (forall j, (j < jtag_dev_count w')%nat -> j <> p ->
       current_ir <$> jtag_devs w' !! j = Some UINT32_MAX) /\
    calls w' = calls w1 ++ [jtag_dev_shift_dr p 32] /\
    debug_log w' = debug_log w ++ [DEBUG_ERROR (tdo_idcode w)].
Proof.
  intros Hty. eexists _, _.
  split; [exact (icepick_write_ir_run w p d _ Hfit Hp)|].
  split; [exact (icepick_router_handler_run w p d Hfit Hp)|].
  simpl. rewrite (write_instruction_table_target w p d _ Hp). simpl.
  rewrite bool_decide_eq_false_2 by done.
  repeat split; try done.
  intros j Hj Hne. rewrite write_instruction_table_other by done.
  destruct (lookup_lt_is_Some_2 (jtag_devs w) j) as [dj Hdj];
    [unfold chain_fits in Hfit; lia|].
  rewrite Hdj. simpl. by rewrite bool_decide_eq_true_2.
Qed.

(** C10.  The handler accepts one router variant only, the type-D signature
    [ICEPICK_TYPE_D]: a success report is made exactly for codes with that
    type field.  A type-C controller, whose type field is [ICEPICK_TYPE_C],
    gets the mismatch report like any other code. *)
Theorem router_handler_type_d_only :
  exists w',
    icepick_router_handler p w = Some (tt, w') /\
    ((exists major minor, debug_log w' = debug_log w ++ [DEBUG_INFO major minor (tdo_idcode w)])
       <-> Z.land (tdo_idcode w) ICEPICK_TYPE_MASK = ICEPICK_TYPE_D) /\
    (Z.land (tdo_idcode w) ICEPICK_TYPE_MASK = ICEPICK_TYPE_C ->
       debug_log w' = debug_log w ++ [DEBUG_ERROR (tdo_idcode w)]).
Proof.
  eexists. split; [exact (icepick_router_handler_run w p d Hfit Hp)|].
  simpl. case_bool_decide as Hty.
  - split.
    + split; [done|]. intros _. by eexists _, _.
    + intros Hc. rewrite Hc in Hty. discriminate Hty.
  - split; [|done]. split; [|done].
    intros (major & minor & Hlog). apply app_inv_head in Hlog. discriminate Hlog.
Qed.

End ReadIdentification.

(** *** Instances on the sample chains *)

Lemma chain3_fits : chain_fits chain3.
Proof. unfold chain_fits. simpl. lia. Defined.

Lemma lone_router_fits : chain_fits lone_router.
Proof. unfold chain_fits. simpl. lia. Defined.

(** The end-to-end example of section 8: device 1 of the [4, 6, 4] chain,
    instruction [0b101010]. *)
Lemma write_ir_transport_calls_chain3 :
  exists w',
    icepick_write_ir 1 x2a chain3 = Some (tt, w') /\
    calls w' =
      [ jtagtap_shift_ir;
        jtagtap_tdi_seq false ones 4;
        jtagtap_tdi_seq false (ir_ptr x2a) 6;
        jtagtap_tdi_seq true ones 4;
        jtagtap_return_idle 0 ] /\
    wire (calls w') =
      [ (Some true, false); (Some true, false); (Some true, false); (Some true, false);
        (Some false, false); (Some true, false); (Some false, false);
        (Some true, false); (Some false, false); (Some true, false);
        (Some true, false); (Some true, false); (Some true, false); (Some true, true) ].
Proof.
  destruct (write_ir_transport_calls chain3 1 x2a chain3_fits
              (mk_jtag_dev UINT32_MAX 6 4 4) eq_refl)
    as (w' & cs & Hrun & Hcalls & Hcs & Hwire).
  exists w'. split; [exact Hrun|].
  simpl in Hcalls. rewrite Hcalls. split; [exact Hcs|].
  rewrite Hwire; [reflexivity|]. simpl. lia.
Defined.

(** A ten-bit IR: the instruction shift asks for ten cycles out of the one
    byte behind [&ir], so from the ninth cycle on the wire does not carry bits
    of [x]. *)
Lemma write_ir_long_ir_reads_past_ir :
  jtag_devs chain_long_ir !! 0%nat = Some (mk_jtag_dev UINT32_MAX 10 0 6) /\
  exists w',
    icepick_write_ir 0 x2a chain_long_ir = Some (tt, w') /\
    calls w' =
      [ jtagtap_shift_ir;
        jtagtap_tdi_seq false ones 0;
        jtagtap_tdi_seq false (ir_ptr x2a) 10;
        jtagtap_tdi_seq true ones 6;
        jtagtap_return_idle 0 ] /\
    wire (calls w') !! 8%nat = Some (None, false) /\
    write_instruction_bits (mk_jtag_dev UINT32_MAX 10 0 6) x2a !! 8%nat =
      Some (Some false, false) /\
    wire (calls w') <> write_instruction_bits (mk_jtag_dev UINT32_MAX 10 0 6) x2a.
Proof.
  split; [reflexivity|].
  eexists. split; [reflexivity|]. split; [reflexivity|].
  split; [reflexivity|]. split; [reflexivity|].
  intros Heq. apply (f_equal (fun l => l !! 8%nat)) in Heq. discriminate Heq.
Qed.

Lemma write_ir_current_ir_chain3 :
  exists w',
    icepick_write_ir 1 x2a chain3 = Some (tt, w') /\
    current_ir <$> jtag_devs w' !! 1%nat = Some 42 /\
    forall j, (j < jtag_dev_count w')%nat -> j <> 1%nat ->
      current_ir <$> jtag_devs w' !! j = Some UINT32_MAX.
Proof.
  apply (write_ir_current_ir chain3 1 x2a chain3_fits). simpl. lia.
Defined.

Lemma write_ir_twice_same_calls_chain3 :
  exists w1 w2 cs,
    icepick_write_ir 1 x2a chain3 = Some (tt, w1) /\
    icepick_write_ir 1 x2a w1 = Some (tt, w2) /\
    calls w1 = calls chain3 ++ cs /\
    calls w2 = calls w1 ++ cs.
Proof.
  exact (write_ir_twice_same_calls chain3 1 x2a chain3_fits
           (mk_jtag_dev UINT32_MAX 6 4 4) eq_refl).
Defined.

Lemma table_frame_chain3 :
  exists w1 w2,
    icepick_write_ir 1 x2a chain3 = Some (tt, w1) /\
    icepick_router_handler 1 chain3 = Some (tt, w2) /\
    attributes <$> jtag_devs w1 = [(4, 0, 10); (6, 4, 4); (4, 10, 0)]%N /\
    attributes <$> jtag_devs w2 = [(4, 0, 10); (6, 4, 4); (4, 10, 0)]%N /\
    length (jtag_devs w1) = 3%nat /\
    length (jtag_devs w2) = 3%nat /\
    jtag_dev_count w1 = 3%nat /\
    jtag_dev_count w2 = 3%nat.
Proof.
  exact (table_frame chain3 1 x2a (mk_jtag_dev UINT32_MAX 6 4 4) chain3_fits eq_refl).
Defined.

Lemma chain_empty_ir_fits : chain_fits chain_empty_ir.
Proof. unfold chain_fits. simpl. lia. Defined.

Lemma write_ir_postscan_call_chain3 :
  exists w' cs,
    icepick_write_ir 1 x2a chain3 = Some (tt, w') /\
    calls w' = cs /\
    filter (fun c => is_tdi_seq c = true) cs =
      [ jtagtap_tdi_seq false ones 4;
        jtagtap_tdi_seq false (ir_ptr x2a) 6;
        jtagtap_tdi_seq true ones 4 ] /\
    tdi_cycles true ones 4 =
      [ (Some true, false); (Some true, false); (Some true, false); (Some true, true) ].
Proof.
  destruct (write_ir_postscan_call chain3 1 x2a chain3_fits
              (mk_jtag_dev UINT32_MAX 6 4 4) eq_refl)
    as (w' & cs & Hrun & Hcalls & Hshifts & _).
  exists w', cs. split; [exact Hrun|]. split; [exact Hcalls|].
  split; [exact Hshifts|reflexivity].
Defined.

(** On a device that is last on the chain the postscan shift is issued all
    the same, for zero bits. *)
Lemma postscan_call_issued_at_zero :
  ir_postscan (mk_jtag_dev UINT32_MAX 6 0 0) = 0%N /\
  jtag_devs lone_router !! 0%nat = Some (mk_jtag_dev UINT32_MAX 6 0 0) /\
  exists w',
    icepick_write_ir 0 IR_ICEPICKCODE lone_router = Some (tt, w') /\
    calls w' =
      [ jtagtap_shift_ir;
        jtagtap_tdi_seq false ones 0;
        jtagtap_tdi_seq true (ir_ptr IR_ICEPICKCODE) 6;
        jtagtap_tdi_seq true ones 0;
        jtagtap_return_idle 0 ].
Proof.
  split; [reflexivity|]. split; [reflexivity|].
  eexists. split; reflexivity.
Qed.

Lemma write_ir_tap_transitions_chain3 :
  exists w' cs path,
    icepick_write_ir 1 x2a chain3 = Some (tt, w') /\
    calls w' = cs /\
    filter (fun c => is_return_idle c = true) cs = [jtagtap_return_idle 0] /\
    existsb requests_idle cs = false /\
    tap_run Idle cs = Some path /\
    last path = Some Update_IR /\
    transitions (Idle :: path) = [Idle; Shift_IR; Exit1_IR; Update_IR].
Proof.
  destruct (write_ir_tap_transitions chain3 1 x2a chain3_fits
              (mk_jtag_dev UINT32_MAX 6 4 4) eq_refl)
    as (w' & cs & shifts & Hrun & Hcalls & _ & _ & Hone & Hidle & _ & Htap).
  destruct Htap as (path & Hpath & Hlast & Htrans); [left; reflexivity|].
  exists w', cs, path. repeat split; assumption.
Defined.


Lemma write_ir_unchecked_lone_router :
  (exists w',
     icepick_write_ir 0 xff lone_router = Some (tt, w') /\
     current_ir <$> jtag_devs w' !! 0%nat = Some 255 /\
     calls w' = write_instruction_calls (mk_jtag_dev UINT32_MAX 6 0 0) xff /\
     debug_log w' = []) /\
  (exists w',
     icepick_write_ir 1 IR_ICEPICKCODE lone_router = Some (tt, w') /\
     current_ir <$> jtag_devs w' !! 1%nat = Some 5 /\
     calls w' = write_instruction_calls (mk_jtag_dev 0 0 0 0) IR_ICEPICKCODE /\
     debug_log w' = []).
Proof.
  split.
  - apply (write_ir_unchecked lone_router 0 xff lone_router_fits
             (mk_jtag_dev UINT32_MAX 6 0 0) eq_refl).
    left. vm_compute. discriminate.
  - apply (write_ir_unchecked lone_router 1 IR_ICEPICKCODE lone_router_fits
             (mk_jtag_dev 0 0 0 0) eq_refl).
    right. simpl. lia.
Defined.

(** An instruction of eight set bits for a six-bit IR, and a slot outside the
    chain: both calls run to completion. *)
Lemma precondition_violations_complete :
  (2 ^ 6 <= uint8_val xff /\
   jtag_devs lone_router !! 0%nat = Some (mk_jtag_dev UINT32_MAX 6 0 0) /\
   exists w',
     icepick_write_ir 0 xff lone_router = Some (tt, w') /\
     jtag_devs w' = [ mk_jtag_dev 255 6 0 0; mk_jtag_dev 0 0 0 0 ] /\
     calls w' =
       [ jtagtap_shift_ir;
         jtagtap_tdi_seq false ones 0;
         jtagtap_tdi_seq true (ir_ptr xff) 6;
         jtagtap_tdi_seq true ones 0;
         jtagtap_return_idle 0 ] /\
     debug_log w' = []) /\
  ((jtag_dev_count lone_router <= 1)%nat /\
   exists w',
     icepick_write_ir 1 IR_ICEPICKCODE lone_router = Some (tt, w') /\
     jtag_devs w' = [ mk_jtag_dev UINT32_MAX 6 0 0; mk_jtag_dev 5 0 0 0 ] /\
     calls w' =
       [ jtagtap_shift_ir;
         jtagtap_tdi_seq false ones 0;
         jtagtap_tdi_seq true (ir_ptr IR_ICEPICKCODE) 0;
         jtagtap_tdi_seq true ones 0;
         jtagtap_return_idle 0 ] /\
     debug_log w' = []).
Proof.
  split.
  - split; [vm_compute; discriminate|]. split; [reflexivity|].
    eexists. split; [reflexivity|]. repeat split.
  - split; [simpl; lia|].
    eexists. split; [reflexivity|]. repeat split.
Qed.

(** The decoding examples of section 8: [0x1234B3D5] is accepted as v1.2,
    [0x1234C3D5] is reported as a mismatch and yields no revision. *)
Lemma router_handler_classifies_samples :
  (exists w',
     icepick_router_handler 1 chain3 = Some (tt, w') /\
     debug_log w' = [DEBUG_INFO 1 2 0x1234B3D5]) /\
  (exists w',
     icepick_router_handler 1 chain3_other = Some (tt, w') /\
     debug_log w' = [DEBUG_ERROR 0x1234C3D5]).
Proof.
  split.
  - destruct (router_handler_classifies chain3 1 (mk_jtag_dev UINT32_MAX 6 4 4)
                chain3_fits eq_refl) as (w' & Hrun & _ & Hok).
    exists w'. split; [exact Hrun|]. exact (Hok eq_refl).
  - destruct (router_handler_classifies chain3_other 1 (mk_jtag_dev UINT32_MAX 6 4 4)
                chain3_fits eq_refl) as (w' & Hrun & Herr & _).
    exists w'. split; [exact Hrun|]. apply Herr. discriminate.
Defined.

Lemma router_handler_mismatch_state_chain3 :
  exists w1 w',
    icepick_write_ir 1 IR_ICEPICKCODE chain3_other = Some (tt, w1) /\
    icepick_router_handler 1 chain3_other = Some (tt, w') /\
    jtag_devs w' = jtag_devs w1 /\
    jtag_dev_count w' = jtag_dev_count w1 /\
    current_ir <$> jtag_devs w' !! 1%nat = Some 5 /\
    (forall j, (j < jtag_dev_count w')%nat -> j <> 1%nat ->
       current_ir <$> jtag_devs w' !! j = Some UINT32_MAX) /\
    calls w' = calls w1 ++ [jtag_dev_shift_dr 1 32] /\
    debug_log w' = [DEBUG_ERROR 0x1234C3D5].
Proof.
  apply (router_handler_mismatch_state chain3_other 1 (mk_jtag_dev UINT32_MAX 6 4 4)
           chain3_fits eq_refl).
  discriminate.
Defined.

(** A genuine type-C code, [0x00001CC0], on the lone router. *)
Lemma router_handler_type_c_rejected :
  exists w',
    icepick_router_handler 0 lone_router = Some (tt, w') /\
    debug_log w' = [DEBUG_ERROR 0x1CC0].
Proof.
  destruct (router_handler_type_d_only lone_router 0 (mk_jtag_dev UINT32_MAX 6 0 0)
              lone_router_fits eq_refl) as (w' & Hrun & _ & Hc).
  exists w'. split; [exact Hrun|]. exact (Hc eq_refl).
Defined.

(** ** Further properties of the addressing engine *)

Section Bounds.

Implicit Types (w : world) (p k n : nat) (x : byte).

Lemma bypass_loop_defined n k w :
  is_Some (bypass_loop n k w) ->
  (k <= length (jtag_devs w))%nat ->
  (k + n <= length (jtag_devs w))%nat.
Proof.
  revert k w. induction n as [|n IH]; intros k w Hsome Hk0.
  - lia.
  - simpl in Hsome. unfold bind at 1 in Hsome. unfold store_current_ir in Hsome.
    destruct (jtag_devs w !! k) as [d|] eqn:Hk; [|by destruct Hsome].
    apply lookup_lt_Some in Hk.
    apply IH in Hsome; simpl in *; rewrite length_insert in *; lia.
Qed.

Lemma icepick_write_ir_undefined w p x :
  ~ (chain_fits w /\ (p < length (jtag_devs w))%nat) ->
  icepick_write_ir p x w = None.
Proof.
  intros Hbad. unfold icepick_write_ir.
  unfold bind at 1. unfold load_dev_count.
  unfold bind at 1.
  destruct (bypass_loop (jtag_dev_count w) 0 w) as [[[] w1]|] eqn:Hloop; [|done].
  assert (Hfit : chain_fits w).
  { unfold chain_fits.
    pose proof (bypass_loop_defined (jtag_dev_count w) 0 w) as Hdef.
    rewrite Hloop in Hdef. specialize (Hdef (mk_is_Some _ _ eq_refl)). lia. }
  rewrite bypass_loop_run in Hloop by apply Hfit.
  injection Hloop as <-.
  unfold bind at 1. unfold store_current_ir. simpl.
  rewrite bypassed_lookup.
  destruct (jtag_devs w !! p) as [d|] eqn:Hp; [|done].
  exfalso. apply Hbad. split; [done|]. by eapply lookup_lt_Some.
Qed.

(** X1.  Both functions stay inside the [jtag_devs] array exactly when the
    chain fits in the array and the device pointer refers to one of its
    slots; in every other case some access falls outside the array. *)
Theorem accesses_in_bounds_iff w p x :
  (is_Some (icepick_write_ir p x w)
     <-> chain_fits w /\ (p < length (jtag_devs w))%nat) /\
  (is_Some (icepick_router_handler p w)
     <-> chain_fits w /\ (p < length (jtag_devs w))%nat).
Proof.
  split; split.
  - intros Hsome.
    destruct (decide (jtag_dev_count w <= length (jtag_devs w))%nat) as [Hfit|Hfit];
      [destruct (decide (p < length (jtag_devs w))%nat) as [Hp|Hp]; [done|]|];
      rewrite icepick_write_ir_undefined in Hsome
        by (unfold chain_fits; lia);
      by destruct Hsome.
  - intros [Hfit Hp]. destruct (lookup_lt_is_Some_2 _ _ Hp) as [d Hd].
    rewrite (icepick_write_ir_run w p d x Hfit Hd). done.
  - intros Hsome.
    destruct (decide (jtag_dev_count w <= length (jtag_devs w))%nat) as [Hfit|Hfit];
      [destruct (decide (p < length (jtag_devs w))%nat) as [Hp|Hp]; [done|]|];
      unfold icepick_router_handler in Hsome; unfold bind at 1 in Hsome;
      rewrite icepick_write_ir_undefined in Hsome
        by (unfold chain_fits; lia);
      by destruct Hsome.
  - intros [Hfit Hp]. destruct (lookup_lt_is_Some_2 _ _ Hp) as [d Hd].
    rewrite (icepick_router_handler_run w p d Hfit Hd). done.
Qed.

End Bounds.

Section Table.

Implicit Types (w : world) (p q j : nat) (x y : byte) (d e : jtag_dev_s).

Lemma uint8_val_range x : 0 <= uint8_val x <= 255.
Proof.
  unfold uint8_val. pose proof (Byte.to_N_bounded x). lia.
Qed.

Lemma write_instruction_table_lookup w p x j :
  write_instruction_table p x w !! j =
    (fun d => if bool_decide (j = p) then set_current_ir (uint8_val x) d
              else if bool_decide (j < jtag_dev_count w)%nat
                   then set_current_ir UINT32_MAX d else d) <$> jtag_devs w !! j.
Proof.
  destruct (decide (j = p)) as [->|Hne].
  - destruct (jtag_devs w !! p) as [d|] eqn:Hp; simpl.
    + rewrite (write_instruction_table_target w p d x Hp).
      by rewrite bool_decide_eq_true_2.
    + unfold write_instruction_table.
      by rewrite list_lookup_alter_eq, bypassed_lookup, Hp.
  - rewrite write_instruction_table_other by done.
    destruct (jtag_devs w !! j) as [dj|]; simpl; [|done].
    by rewrite (bool_decide_eq_false_2 (j = p)).
Qed.

(** X2.  Slots of the array beyond the chain are left exactly as they were,
    the slot [device] points to excepted. *)
Theorem write_ir_outside_chain_untouched w p x d :
  chain_fits w ->
  jtag_devs w !! p = Some d ->
  exists w',
    icepick_write_ir p x w = Some (tt, w') /\
    forall j, (jtag_dev_count w <= j)%nat -> j <> p ->
      jtag_devs w' !! j = jtag_devs w !! j.
Proof.
  intros Hfit Hp. eexists. split; [exact (icepick_write_ir_run w p d x Hfit Hp)|].
  simpl. intros j Hj Hne. rewrite write_instruction_table_lookup.
  rewrite (bool_decide_eq_false_2 (j = p)) by done.
  rewrite bool_decide_eq_false_2 by lia.
  by destruct (jtag_devs w !! j).
Qed.

(** X3.  After a write to a device of the chain, that device is the only one
    of the chain whose [current_ir] is not the bypass sentinel: an 8-bit
    instruction, zero-extended, is at most 255 and cannot be mistaken for
    [UINT32_MAX]. *)
Theorem write_ir_single_opcode w p x :
  chain_fits w ->
  (p < jtag_dev_count w)%nat ->
  exists w',
    icepick_write_ir p x w = Some (tt, w') /\
    forall j, (j < jtag_dev_count w')%nat ->
      (current_ir <$> jtag_devs w' !! j = Some UINT32_MAX <-> j <> p).
Proof.
  intros Hfit Hin.
  destruct (lookup_lt_is_Some_2 (jtag_devs w) p) as [d Hp];
    [unfold chain_fits in Hfit; lia|].
  eexists. split; [exact (icepick_write_ir_run w p d x Hfit Hp)|].
  simpl. intros j Hj. rewrite write_instruction_table_lookup.
  destruct (lookup_lt_is_Some_2 (jtag_devs w) j) as [dj Hdj];
    [unfold chain_fits in Hfit; lia|].
  rewrite Hdj. simpl. case_bool_decide as Hjp.
  - simpl. pose proof (uint8_val_range x) as Hx. unfold UINT32_MAX.
    split; [|done]. intros Heq. injection Heq as Heq. lia.
  - rewrite bool_decide_eq_true_2 by done. done.
Qed.

Lemma write_instruction_table_again w p q x y (c : Z) (cs : list jtag_call)
    (ms : list debug_msg) :
  (p < jtag_dev_count w)%nat \/ p = q ->
  write_instruction_table q y
    {| jtag_devs := write_instruction_table p x w;
       jtag_dev_count := jtag_dev_count w;
       tdo_idcode := c; calls := cs; debug_log := ms |} =
  write_instruction_table q y w.
Proof.
  intros Hpq. apply list_eq; intros j.
  rewrite !write_instruction_table_lookup. simpl.
  rewrite write_instruction_table_lookup.
  destruct (jtag_devs w !! j) as [dj|]; simpl; [|done].
  f_equal. repeat case_bool_decide; subst; try done; lia.
Qed.

(** X4.  The last write wins.  Writing to a device of the chain and then
    writing again, to any slot, leaves the table the second write alone would
    have left, and the second write issues the calls it would have issued
    alone.  Repeating a write, for any slot, is the case [p = q]. *)
Theorem write_ir_last_write_wins w p q x y d e :
  chain_fits w ->
  jtag_devs w !! p = Some d ->
  jtag_devs w !! q = Some e ->
  (p < jtag_dev_count w)%nat \/ p = q ->
  exists w1 w2 w2' cs,
    icepick_write_ir p x w = Some (tt, w1) /\
    icepick_write_ir q y w1 = Some (tt, w2) /\
    icepick_write_ir q y w = Some (tt, w2') /\
    jtag_devs w2 = jtag_devs w2' /\
    calls w2 = calls w1 ++ cs /\
    calls w2' = calls w ++ cs.
Proof.
  intros Hfit Hp Hq Hpq.
  pose proof (icepick_write_ir_run w p d x Hfit Hp) as Hrun1.
  set (w1 := {| jtag_devs := write_instruction_table p x w;
                jtag_dev_count := jtag_dev_count w;
                tdo_idcode := tdo_idcode w;
                calls := calls w ++ write_instruction_calls d x;
                debug_log := debug_log w |}) in Hrun1.
  assert (Hfit1 : chain_fits w1).
  { unfold chain_fits, w1, write_instruction_table. simpl.
    rewrite length_alter, bypassed_length. exact Hfit. }
  destruct (jtag_devs w1 !! q) as [e1|] eqn:Hq1.
  2:{ unfold w1 in Hq1. simpl in Hq1.
      rewrite write_instruction_table_lookup, Hq in Hq1. done. }
  assert (Hcalls : write_instruction_calls e1 y = write_instruction_calls e y).
  { unfold w1 in Hq1. simpl in Hq1.
    rewrite write_instruction_table_lookup, Hq in Hq1. simpl in Hq1.
    injection Hq1 as <-. by repeat case_bool_decide. }
  eexists w1, _, _, (write_instruction_calls e y).
  split; [exact Hrun1|].
  split; [exact (icepick_write_ir_run w1 q e1 y Hfit1 Hq1)|].
  split; [exact (icepick_write_ir_run w q e y Hfit Hq)|].
  simpl. split; [by apply write_instruction_table_again|].
  split; [by rewrite Hcalls|done].
Qed.

(** X5.  The shifts of a write ask for [ir_prescan + ir_len + ir_postscan]
    clock cycles in all, and for none after a shift that has taken the exit
    from Shift-IR.  Some shift takes the exit exactly when the IR length or
    the postscan is not zero. *)
Theorem write_ir_shift_discipline w p x d :
  chain_fits w ->
  jtag_devs w !! p = Some d ->
  exists w' cs,
    icepick_write_ir p x w = Some (tt, w') /\
    calls w' = calls w ++ cs /\
    clock_total cs = (ir_prescan d + ir_len d + ir_postscan d)%N /\
    cycles_after_exit false cs = 0%N /\
    (existsb takes_exit cs = true <-> (0 < ir_len d \/ 0 < ir_postscan d)%N).
Proof.
  intros Hfit Hp. eexists _, (write_instruction_calls d x).
  split; [exact (icepick_write_ir_run w p d x Hfit Hp)|].
  split; [reflexivity|].
  unfold write_instruction_calls.
  destruct (ir_postscan d) as [|post], (ir_len d) as [|len]; simpl;
    repeat split; lia.
Qed.

End Table.

(** ** Further properties of the identification reader *)

Section Decode.

Lemma land_nibble (a : Z) : Z.land a 0xf = a mod 16.
Proof. change 0xf with (Z.ones 4). by rewrite Z.land_ones. Qed.

(** The type mask keeps bits 4 to 15. *)
Lemma land_type_mask (c : Z) : Z.land c 0xfff0 = 16 * ((c / 16) mod 4096).
Proof.
  change 16 with (2 ^ 4) at 1. rewrite Z.mul_comm, <- Z.shiftl_mul_pow2 by lia.
  change 16 with (2 ^ 4). rewrite <- Z.shiftr_div_pow2 by lia.
  change 4096 with (2 ^ 12). rewrite <- Z.land_ones by lia.
  change 0xfff0 with (Z.shiftl (Z.ones 12) 4).
  apply Z.bits_inj'. intros n Hn.
  rewrite Z.land_spec, !Z.shiftl_spec by done.
  destruct (decide (n < 4)) as [Hlt|Hge].
  - rewrite !(Z.testbit_neg_r _ (n - 4)) by lia. by rewrite andb_false_r.
  - rewrite Z.land_spec, Z.shiftr_spec by lia.
    by replace (n - 4 + 4) with n by lia.
Qed.

Variable w : world.
Variable p : nat.
Variable d : jtag_dev_s.
Hypothesis Hfit : chain_fits w.
Hypothesis Hp : jtag_devs w !! p = Some d.

(** X6.  The code read back decides the report and nothing else: with any
    other word on TDO the handler leaves the same device table and issues the
    same calls. *)
Theorem router_handler_code_only_in_report (code : Z) :
  exists w1 w2,
    icepick_router_handler p w = Some (tt, w1) /\
    icepick_router_handler p (set_tdo_idcode code w) = Some (tt, w2) /\
    jtag_devs w1 = jtag_devs w2 /\
    jtag_dev_count w1 = jtag_dev_count w2 /\
    calls w1 = calls w2.
Proof.
  eexists _, _.
  split; [exact (icepick_router_handler_run w p d Hfit Hp)|].
  split; [exact (icepick_router_handler_run (set_tdo_idcode code w) p d Hfit Hp)|].
  done.
Qed.

(** X7.  A success report carries the code that was read and two revision
    digits between 0 and 15: bits 28 to 31 and bits 24 to 27 of the code.  For
    a 32-bit code the major digit is the code shifted right by 28, the mask
    changing nothing. *)
Theorem router_handler_revision_digits :
  exists w',
    icepick_router_handler p w = Some (tt, w') /\
    forall major minor code,
      last (debug_log w') = Some (DEBUG_INFO major minor code) ->
      code = tdo_idcode w /\
      0 <= major < 16 /\ 0 <= minor < 16 /\
      major = (code / 2 ^ 28) mod 16 /\
      minor = (code / 2 ^ 24) mod 16 /\
      (0 <= code < 2 ^ 32 -> major = code / 2 ^ 28).
Proof.
  eexists. split; [exact (icepick_router_handler_run w p d Hfit Hp)|].
  simpl. intros major minor code Hlast. rewrite last_snoc in Hlast.
  case_bool_decide; [|discriminate Hlast].
  injection Hlast as <- <- <-.
  unfold ICEPICK_MAJOR_MASK, ICEPICK_MINOR_MASK, ICEPICK_MAJOR_SHIFT,
    ICEPICK_MINOR_SHIFT.
  rewrite !land_nibble, !Z.shiftr_div_pow2 by lia.
  split; [done|].
  split; [apply Z.mod_pos_bound; lia|].
  split; [apply Z.mod_pos_bound; lia|].
  split; [done|]. split; [done|].
  intros Hcode. apply Z.mod_small. split.
  - apply Z.div_pos; lia.
  - apply Z.div_lt_upper_bound; lia.
Qed.

(** X8.  Acceptance looks at bits 4 to 15 of the code and at nothing else: a
    success report is made exactly when those twelve bits are [0xb3d],
    whatever bits 0 to 3 and 16 to 31 hold. *)
Theorem router_handler_type_field :
  exists w',
    icepick_router_handler p w = Some (tt, w') /\
    ((exists major minor,
        last (debug_log w') = Some (DEBUG_INFO major minor (tdo_idcode w)))
       <-> (tdo_idcode w / 16) mod 4096 = 0xb3d).
Proof.
  eexists. split; [exact (icepick_router_handler_run w p d Hfit Hp)|].
  simpl. rewrite last_snoc.
  unfold ICEPICK_TYPE_MASK, ICEPICK_TYPE_D. rewrite land_type_mask.
  case_bool_decide as Hty.
  - split; [lia|]. intros _. by eexists _, _.
  - split; [|lia]. intros (major & minor & Heq). discriminate Heq.
Qed.

(** X9.  Reading back a code laid out from its fields: with type field
    [0xb3d0], revision digits [major] and [minor] and anything in the
    remaining bits, the handler reports exactly [major] and [minor]. *)
Theorem router_handler_reads_fields (major minor mid low : Z) :
  0 <= major < 16 -> 0 <= minor < 16 -> 0 <= mid < 256 -> 0 <= low < 16 ->
  tdo_idcode w = major * 2 ^ 28 + minor * 2 ^ 24 + mid * 2 ^ 16 + 0xb3d0 + low ->
  exists w',
    icepick_router_handler p w = Some (tt, w') /\
    debug_log w' = debug_log w ++ [DEBUG_INFO major minor (tdo_idcode w)].
Proof.
  intros Hmajor Hminor Hmid Hlow Hcode.
  eexists. split; [exact (icepick_router_handler_run w p d Hfit Hp)|].
  simpl. f_equal.
  unfold ICEPICK_TYPE_MASK, ICEPICK_TYPE_D, ICEPICK_MAJOR_MASK, ICEPICK_MINOR_MASK,
    ICEPICK_MAJOR_SHIFT, ICEPICK_MINOR_SHIFT.
  rewrite land_type_mask, !land_nibble, !Z.shiftr_div_pow2 by lia.
  rewrite Hcode.
  change (2 ^ 28) with 268435456. change (2 ^ 24) with 16777216.
  change (2 ^ 16) with 65536.
  rewrite bool_decide_eq_true_2 by (Z.div_mod_to_equations; lia).
  do 2 f_equal; Z.div_mod_to_equations; lia.
Qed.

End Decode.

(** *** Further instances on the sample chains *)

Lemma write_ir_outside_chain_untouched_lone_router :
  exists w',
    icepick_write_ir 0 IR_ICEPICKCODE lone_router = Some (tt, w') /\
    forall j, (1 <= j)%nat -> j <> 0%nat ->
      jtag_devs w' !! j = jtag_devs lone_router !! j.
Proof.
  exact (write_ir_outside_chain_untouched lone_router 0 IR_ICEPICKCODE
           (mk_jtag_dev UINT32_MAX 6 0 0) lone_router_fits eq_refl).
Defined.

Lemma write_ir_single_opcode_chain3 :
  exists w',
    icepick_write_ir 1 x2a chain3 = Some (tt, w') /\
    forall j, (j < jtag_dev_count w')%nat ->
      (current_ir <$> jtag_devs w' !! j = Some UINT32_MAX <-> j <> 1%nat).
Proof.
  apply (write_ir_single_opcode chain3 1 x2a chain3_fits). simpl. lia.
Defined.

Lemma write_ir_last_write_wins_chain3 :
  exists w1 w2 w2' cs,
    icepick_write_ir 1 x2a chain3 = Some (tt, w1) /\
    icepick_write_ir 2 IR_ROUTER w1 = Some (tt, w2) /\
    icepick_write_ir 2 IR_ROUTER chain3 = Some (tt, w2') /\
    jtag_devs w2 = jtag_devs w2' /\
    calls w2 = calls w1 ++ cs /\
    calls w2' = calls chain3 ++ cs.
Proof.
  apply (write_ir_last_write_wins chain3 1 2 x2a IR_ROUTER
           (mk_jtag_dev UINT32_MAX 6 4 4) (mk_jtag_dev 0x9 4 10 0)
           chain3_fits eq_refl eq_refl).
  left. simpl. lia.
Defined.

Lemma write_ir_shift_discipline_chain3 :
  exists w' cs,
    icepick_write_ir 1 x2a chain3 = Some (tt, w') /\
    calls w' = calls chain3 ++ cs /\
    clock_total cs = 14%N /\
    cycles_after_exit false cs = 0%N /\
    (existsb takes_exit cs = true <-> (0 < 6 \/ 0 < 4)%N).
Proof.
  exact (write_ir_shift_discipline chain3 1 x2a (mk_jtag_dev UINT32_MAX 6 4 4)
           chain3_fits eq_refl).
Defined.

Lemma router_handler_code_only_in_report_chain3 :
  exists w1 w2,
    icepick_router_handler 1 chain3 = Some (tt, w1) /\
    icepick_router_handler 1 (set_tdo_idcode 0x1234C3D5 chain3) = Some (tt, w2) /\
    jtag_devs w1 = jtag_devs w2 /\
    jtag_dev_count w1 = jtag_dev_count w2 /\
    calls w1 = calls w2.
Proof.
  exact (router_handler_code_only_in_report chain3 1 (mk_jtag_dev UINT32_MAX 6 4 4)
           chain3_fits eq_refl 0x1234C3D5).
Defined.

Lemma router_handler_revision_digits_chain3 :
  exists w',
    icepick_router_handler 1 chain3 = Some (tt, w') /\
    forall major minor code,
      last (debug_log w') = Some (DEBUG_INFO major minor code) ->
      code = 0x1234B3D5 /\
      0 <= major < 16 /\ 0 <= minor < 16 /\
      major = (code / 2 ^ 28) mod 16 /\
      minor = (code / 2 ^ 24) mod 16 /\
      (0 <= code < 2 ^ 32 -> major = code / 2 ^ 28).
Proof.
  exact (router_handler_revision_digits chain3 1 (mk_jtag_dev UINT32_MAX 6 4 4)
           chain3_fits eq_refl).
Defined.

Lemma router_handler_type_field_chain3 :
  exists w',
    icepick_router_handler 1 chain3 = Some (tt, w') /\
    ((exists major minor,
        last (debug_log w') = Some (DEBUG_INFO major minor 0x1234B3D5))
       <-> (0x1234B3D5 / 16) mod 4096 = 0xb3d).
Proof.
  exact (router_handler_type_field chain3 1 (mk_jtag_dev UINT32_MAX 6 4 4)
           chain3_fits eq_refl).
Defined.

Lemma router_handler_reads_fields_chain3 :
  exists w',
    icepick_router_handler 1 chain3 = Some (tt, w') /\
    debug_log w' = [DEBUG_INFO 1 2 0x1234B3D5].
Proof.
  apply (router_handler_reads_fields chain3 1 (mk_jtag_dev UINT32_MAX 6 4 4)
           chain3_fits eq_refl 1 2 0x34 5); [lia | lia | lia | lia | reflexivity].
Defined.

End Icepick.
